(** * AuthPage: the "Login with X" component

    A shallow embedding of [frontend/app/src/components/auth/page.tsx]
    (both variants of the component found under that path) and the
    properties of its activation handler and of what it renders.

    - [JS]: the JavaScript values the handler touches (the parsed response
      body, thrown errors, completions).
    - [Async]: the handler's effects and a small monad for [async]
      functions: synchronous effects, [await] on a call to the environment,
      [throw], [try]/[catch]/[finally].
    - [React]: the rendered tree, the [Button] control and a component
      instance driven by events (clicks, settled promises, commits).
    - [AuthPage], [AuthPageStub]: the two variants of the component. *)

From Stdlib Require Import ZArith String List Bool Lia.
From stdpp Require Import base option list.

Local Open Scope string_scope.
Local Open Scope list_scope.

(** ** JavaScript values *)

Module JS.

(** What [response.json()] can resolve to, plus [undefined], which a
    property read yields for an absent property.  A number is the decimal
    [mantissa * 10 ^ exponent] a JSON literal denotes.  An object is its
    members in the order of the text; [JSON.parse] lets a later member
    overwrite an earlier one with the same key. *)
#[warnings="-register-all"] Inductive value : Type :=
| VUndefined
| VNull
| VBool (b : bool)
| VNum (mantissa exponent : Z)
| VStr (s : string)
| VArr (items : list value)
| VObj (members : list (string * value)).

(** A thrown [Error] object: its [name] and its [message]. *)
Record error : Type := mkError { name : string; message : string }.

(** [new Error(msg)]. *)
Definition Error (msg : string) : error :=
  {| name := "Error"; message := msg |}.

(** The [TypeError] of a property read on [null] or [undefined]
    (the message is V8's). *)
Definition TypeError_read (base key : string) : error :=
  {| name := "TypeError";
     message := "Cannot read properties of " ++ base
                ++ " (reading '" ++ key ++ "')" |}.

(** How a statement or a promise ends: with a value or with a throw
    (a rejection). *)
Inductive completion (A : Type) : Type :=
| Normal (a : A)
| Thrown (e : error).
Arguments Normal {A} a.
Arguments Thrown {A} e.

(** The own property [key] of a parsed object: the last member with that
    key. *)
Fixpoint member (key : string) (ms : list (string * value)) : option value :=
  match ms with
  | [] => None
  | (k, v) :: rest =>
      match member key rest with
      | Some v' => Some v'
      | None => if String.eqb k key then Some v else None
      end
  end.

(** [data.auth_url].  On [null] and [undefined] the read throws; on an
    object it is the own property or [undefined]; no prototype of a
    boolean, number, string or array has an [auth_url], so the read is
    [undefined] there. *)
Definition get_auth_url (data : value) : completion value :=
  match data with
  | VUndefined => Thrown (TypeError_read "undefined" "auth_url")
  | VNull => Thrown (TypeError_read "null" "auth_url")
  | VObj ms =>
      match member "auth_url" ms with
      | Some v => Normal v
      | None => Normal VUndefined
      end
  | VBool _ | VNum _ _ | VStr _ | VArr _ => Normal VUndefined
  end.

End JS.
Export JS.

(** ** Effects and asynchronous functions *)

Module Async.

(** The second argument of [fetch]; an absent [body] option is [None]. *)
Record RequestInit : Type := mkRequestInit {
  method : string;
  headers : list (string * string);
  body : option string
}.

(** A [Response] as the handler sees it: its status, and what reading
    its body with [json()] settles to. *)
Record Response : Type := mkResponse {
  status : Z;
  json_body : completion value
}.

(** [response.ok]: the status is in the range 200-299. *)
Definition ok (response : Response) : bool :=
  (200 <=? status response)%Z && (status response <=? 299)%Z.

(** The calls that return a promise. *)
Inductive call : Type -> Type :=
| fetch (url : string) (init : RequestInit) : call Response
| json (response : Response) : call value.

(** What the handler does to the world, in order. *)
Inductive effect : Type :=
| SetLoading (b : bool)                     (* setLoading(b) *)
| Fetch (url : string) (init : RequestInit) (* fetch(url, init) is sent *)
| Json (status : Z)                         (* response.json() is called *)
| SetHref (v : value)                       (* window.location.href = v is accepted *)
| ConsoleError (msg : string) (e : error)   (* console.error(msg, e) *)
| ConsoleLog (msg : string)                 (* console.log(msg) *)
| Alert (msg : string).                     (* alert(msg) *)

Definition effect_of_call {B : Type} (c : call B) : effect :=
  match c with
  | fetch url init => Fetch url init
  | json response => Json (status response)
  end.

(** An [async] function body: it returns, throws, performs an effect and
    goes on, assigns to [window.location.href] (the assignment is accepted,
    which starts the navigation, or it throws), or makes a call and is
    suspended until the promise settles. *)
Inductive prog (A : Type) : Type :=
| Ret (a : A)
| Throw (e : error)
| Do (eff : effect) (k : prog A)
| Navigate (v : value) (k : completion unit -> prog A)
| Await {B : Type} (c : call B) (k : completion B -> prog A).
Arguments Ret {A} a.
Arguments Throw {A} e.
Arguments Do {A} eff k.
Arguments Navigate {A} v k.
Arguments Await {A B} c k.

Fixpoint bind {A B : Type} (p : prog A) (f : A -> prog B) : prog B :=
  match p with
  | Ret a => f a
  | Throw e => Throw e
  | Do eff k => Do eff (bind k f)
  | Navigate v k => Navigate v (fun o => bind (k o) f)
  | Await c k => Await c (fun o => bind (k o) f)
  end.

#[export] Instance prog_ret : MRet prog := fun A a => Ret a.
#[export] Instance prog_bind : MBind prog := fun A B f p => bind p f.

Definition throw {A : Type} (e : error) : prog A := Throw e.

Definition perform (eff : effect) : prog unit := Do eff (Ret tt).

(** [await c]: a rejected promise is thrown at the [await]. *)
Definition await {B : Type} (c : call B) : prog B :=
  Await c (fun o => match o with Normal b => Ret b | Thrown e => Throw e end).

(** A synchronous expression that may throw. *)
Definition eval {A : Type} (o : completion A) : prog A :=
  match o with Normal a => Ret a | Thrown e => Throw e end.

(** [try { body } catch (e) { handler e }]. *)
Fixpoint try_catch {A : Type} (body : prog A) (handler : error -> prog A)
  : prog A :=
  match body with
  | Ret a => Ret a
  | Throw e => handler e
  | Do eff k => Do eff (try_catch k handler)
  | Navigate v k => Navigate v (fun o => try_catch (k o) handler)
  | Await c k => Await c (fun o => try_catch (k o) handler)
  end.

(** [try { body } finally { cleanup }]: the cleanup runs on both ways
    out; when it completes normally the body's completion stands. *)
Fixpoint try_finally {A : Type} (body : prog A) (cleanup : prog unit)
  : prog A :=
  match body with
  | Ret a => bind cleanup (fun _ => Ret a)
  | Throw e => bind cleanup (fun _ => Throw e)
  | Do eff k => Do eff (try_finally k cleanup)
  | Navigate v k => Navigate v (fun o => try_finally (k o) cleanup)
  | Await c k => Await c (fun o => try_finally (k o) cleanup)
  end.

(** [try { body } catch (e) { handler e } finally { cleanup }]. *)
Definition try_catch_finally {A : Type} (body : prog A)
    (handler : error -> prog A) (cleanup : prog unit) : prog A :=
  try_finally (try_catch body handler) cleanup.

(** The environment of the handler.  The network decides how a [fetch]
    settles.  The browser decides what the setter of
    [window.location.href] does with a value: it accepts it and starts the
    navigation when the value's string is a URL it can parse against the
    document's base, and throws a [SyntaxError] when it is not. *)
Definition Network : Type := string -> RequestInit -> completion Response.
Definition HrefSetter : Type := value -> completion unit.

Definition settle (network : Network) {B : Type} (c : call B) : completion B :=
  match c in call T return completion T with
  | fetch url init => network url init
  | json response => json_body response
  end.

(** An accepted assignment is a navigation; one that throws changes
    nothing. *)
Definition href_effect (v : value) (o : completion unit) : list effect :=
  match o with
  | Normal _ => [SetHref v]
  | Thrown _ => []
  end.

(** Run to completion against an environment: the effects in order and
    how the function's promise settles. *)
Fixpoint run {A : Type} (network : Network) (href : HrefSetter) (p : prog A)
  : list effect * completion A :=
  match p with
  | Ret a => ([], Normal a)
  | Throw e => ([], Thrown e)
  | Do eff k => let '(effs, r) := run network href k in (eff :: effs, r)
  | Navigate v k =>
      let '(effs, r) := run network href (k (href v)) in
      (href_effect v (href v) ++ effs, r)
  | Await c k =>
      let '(effs, r) := run network href (k (settle network c)) in
      (effect_of_call c :: effs, r)
  end.

(** A function suspended at an [await]: the call it waits for and the
    rest of its body. *)
Inductive suspended : Type :=
| Suspended {B : Type} (waiting : call B) (resume : completion B -> prog unit).

(** Run up to the next [await] (or to the end): the effects performed,
    the call included, and the suspended rest if there is one. *)
Fixpoint run_sync (href : HrefSetter) (p : prog unit)
  : list effect * option suspended :=
  match p with
  | Ret _ | Throw _ => ([], None)
  | Do eff k => let '(effs, s) := run_sync href k in (eff :: effs, s)
  | Navigate v k =>
      let '(effs, s) := run_sync href (k (href v)) in
      (href_effect v (href v) ++ effs, s)
  | Await c k => ([effect_of_call c], Some (Suspended c k))
  end.

(** The value of the [loading] state after some effects. *)
Definition set_state (loading : bool) (eff : effect) : bool :=
  match eff with
  | SetLoading b => b
  | _ => loading
  end.

Definition state_after (effs : list effect) (loading : bool) : bool :=
  fold_left set_state effs loading.

Definition is_fetch (eff : effect) : bool :=
  match eff with Fetch _ _ => true | _ => false end.
Definition is_json (eff : effect) : bool :=
  match eff with Json _ => true | _ => false end.
Definition is_navigation (eff : effect) : bool :=
  match eff with SetHref _ => true | _ => false end.
Definition is_alert (eff : effect) : bool :=
  match eff with Alert _ => true | _ => false end.
Definition is_set_state (eff : effect) : bool :=
  match eff with SetLoading _ => true | _ => false end.

End Async.
Export Async.

(** ** Rendered trees and component instances *)

Module React.

(** The props the two variants pass to [Button]. *)
Record ButtonProps : Type := mkButtonProps {
  onClick : prog unit;
  disabled : option bool;     (* [None]: the prop is not passed *)
  size : string;
  className : string
}.

(** What a component returns: text, host elements ([div], [h1], [p]) with
    their [className], the [X] icon and the [Button] control. *)
#[warnings="-register-all"] Inductive node : Type :=
| text (s : string)
| element (tag cls : string) (children : list node)
| X (cls : string)
| Button (props : ButtonProps) (children : list node).

Fixpoint text_content (n : node) : string :=
  match n with
  | text s => s
  | X _ => ""
  | element _ _ children | Button _ children =>
      String.concat "" (map text_content children)
  end.

(** The controls of a tree, each with its visible label. *)
Fixpoint buttons (n : node) : list (ButtonProps * string) :=
  match n with
  | Button props children =>
      [(props, String.concat "" (map text_content children))]
  | element _ _ children => flat_map buttons children
  | text _ | X _ => []
  end.

Definition control (n : node) : option (ButtonProps * string) :=
  head (buttons n).

(** Modelled from the spec: the [Button] component of
    [@/components/ui/button], whose source is not at hand.  "The control
    is disabled (non-activatable) while Pending": the control is disabled
    when its [disabled] prop is true; a control that is not given the prop
    is enabled. *)
Definition is_disabled (props : ButtonProps) : bool :=
  match disabled props with
  | Some b => b
  | None => false
  end.

(** Modelled from the spec: what an activation of the [Button] control
    calls, by the same sentence: nothing when the control is disabled, its
    [onClick] otherwise. *)
Definition activate (props : ButtonProps) : option (prog unit) :=
  if is_disabled props then None else Some (onClick props).

(** A component with one boolean state cell. *)
Record component : Type := mkComponent {
  initial_state : bool;
  render : bool -> node
}.

(** A mounted instance: the state cell as last set, the tree React last
    committed to the document, the handler invocations suspended at an
    [await] (each waits for its login request), and everything done so
    far. *)
Record instance : Type := mkInstance {
  loading : bool;
  dom : node;
  tasks : list suspended;
  log : list effect
}.

(** What the event loop delivers.  Each event is handled to the end, up to
    the next [await], before another one is taken. *)
Inductive event : Type :=
| Click                                       (* the user activates the control *)
| Responds (i : nat) (o : completion Response) (* the fetch of task [i] settles *)
| BodyRead (i : nat)                          (* response.json() of task [i] settles *)
| Commit.                                     (* React renders the state and commits *)

Definition on_response (o : completion Response) (t : suspended)
  : option (prog unit) :=
  match t with
  | Suspended c k =>
      match c in call B return (completion B -> prog unit) -> option (prog unit) with
      | fetch _ _ => fun k => Some (k o)
      | json _ => fun _ => None
      end k
  end.

Definition on_body (t : suspended) : option (prog unit) :=
  match t with
  | Suspended c k =>
      match c in call B return (completion B -> prog unit) -> option (prog unit) with
      | fetch _ _ => fun _ => None
      | json response => fun k => Some (k (json_body response))
      end k
  end.

Definition waits_for_fetch (t : suspended) : bool :=
  match t with
  | Suspended c _ => match c with fetch _ _ => true | json _ => false end
  end.

Section Instance.

Variable C : component.
Variable href : HrefSetter.

Definition mount : instance :=
  {| loading := initial_state C;
     dom := render C (initial_state C);
     tasks := [];
     log := [] |}.

Definition commit (s : instance) : instance :=
  {| loading := loading s;
     dom := render C (loading s);
     tasks := tasks s;
     log := log s |}.

(** Call a handler: it runs to its first [await]. *)
Definition invoke (handler : prog unit) (s : instance) : instance :=
  let '(effs, rest) := run_sync href handler in
  {| loading := state_after effs (loading s);
     dom := dom s;
     tasks := tasks s ++ option_list rest;
     log := log s ++ effs |}.

(** Resume task [i] with the rest of its body: it runs to its next
    [await], where it stays task [i], or to its end. *)
Definition resume (i : nat) (p : prog unit) (s : instance) : instance :=
  let '(effs, rest) := run_sync href p in
  {| loading := state_after effs (loading s);
     dom := dom s;
     tasks := match rest with
              | Some t => <[i := t]> (tasks s)
              | None => delete i (tasks s)
              end;
     log := log s ++ effs |}.

(** A click is a discrete event: the state its handler sets is rendered
    and committed before the next event is taken.  State set by a
    resumed handler is committed later, at a [Commit]. *)
Definition step (s : instance) (ev : event) : instance :=
  match ev with
  | Click =>
      match control (dom s) with
      | Some (props, _) =>
          match activate props with
          | Some handler => commit (invoke handler s)
          | None => s
          end
      | None => s
      end
  | Responds i o =>
      match tasks s !! i ≫= on_response o with
      | Some p => resume i p s
      | None => s
      end
  | BodyRead i =>
      match tasks s !! i ≫= on_body with
      | Some p => resume i p s
      | None => s
      end
  | Commit => commit s
  end.

Definition exec (evs : list event) (s : instance) : instance :=
  fold_left step evs s.

End Instance.

(** The login requests that are out: the tasks still waiting for the
    response. *)
Definition in_flight (s : instance) : nat :=
  length (List.filter waits_for_fetch (tasks s)).

End React.
Export React.

(** ** The network-backed component *)

Module AuthPage.

Definition setLoading (b : bool) : prog unit := perform (SetLoading b).
Definition set_location_href (v : value) : prog unit := Navigate v eval.
Definition console_error (msg : string) (e : error) : prog unit :=
  perform (ConsoleError msg e).
Definition alert (msg : string) : prog unit := perform (Alert msg).

Definition handleLogin : prog unit :=
  setLoading true;;
  try_catch_finally
    (response ← await (fetch "/api/v1/auth/x/login"
                         {| method := "POST";
                            headers := [("Content-Type", "application/json")];
                            body := None |});
     (if negb (ok response)
      then throw (Error "Failed to initiate X login")
      else mret tt);;
     data ← await (json response);
     (* Redirect to X.com authorization page *)
     auth_url ← eval (get_auth_url data);
     set_location_href auth_url)
    (fun error =>
       console_error "X login error:" error;;
       alert "Failed to start X login. Please try again.")
    (setLoading false).

Definition view (loading : bool) : node :=
  element "div" "flex min-h-screen items-center justify-center bg-background" [
    element "div" "flex flex-col items-center space-y-6" [
      element "div" "text-center" [
        element "h1" "text-3xl font-bold text-foreground mb-2"
          [text "Welcome to T-Pot Run Club"];
        element "p" "text-muted-foreground"
          [text "Sign in with X to access your running leaderboard"]
      ];
      Button {| onClick := handleLogin;
                disabled := Some loading;
                size := "lg";
                className := "flex items-center gap-2 px-8 py-3 text-lg" |}
        [X "size-5";
         text (if loading then "Connecting..." else "Login with X")]
    ]
  ].

(** [const [loading, setLoading] = useState(false)]. *)
Definition AuthPage : component :=
  {| initial_state := false; render := view |}.

End AuthPage.

(** ** The stub variant *)

Module AuthPageStub.

Definition console_log (msg : string) : prog unit := perform (ConsoleLog msg).

Definition handleLogin : prog unit :=
  (* Add your X/Twitter OAuth login logic here *)
  console_log "Login with X clicked".

Definition view : node :=
  element "div" "flex min-h-screen items-center justify-center bg-background" [
    element "div" "flex flex-col items-center space-y-6" [
      element "div" "text-center" [
        element "h1" "text-3xl font-bold text-foreground mb-2" [text "Welcome"];
        element "p" "text-muted-foreground" [text "Sign in to continue"]
      ];
      Button {| onClick := handleLogin;
                disabled := None;
                size := "lg";
                className := "flex items-center gap-2 px-8 py-3 text-lg" |}
        [X "size-5"; text "Login with X"]
    ]
  ].

(** The stub declares no state: the instance's cell is never read. *)
Definition AuthPage : component :=
  {| initial_state := false; render := fun _ => view |}.

End AuthPageStub.

(** ** Vocabulary of the properties *)

Module Props.

Import AuthPage.

(** The request [handleLogin] sends. *)
Definition login_url : string := "/api/v1/auth/x/login".
Definition login_init : RequestInit :=
  {| method := "POST";
     headers := [("Content-Type", "application/json")];
     body := None |}.

Definition failure_message : string :=
  "Failed to start X login. Please try again.".

(** What the [catch] block does with the error it receives, followed by
    the [finally] block. *)
Definition failure_tail (e : error) : list effect :=
  [ConsoleError "X login error:" e; Alert failure_message; SetLoading false].

(** The specification's three-valued state. *)
Inductive LoginRequestState : Type := Idle | Pending | Failed.

(** The ways the login can fail to start that take the handler to its
    [catch] block, each with the error the block receives: the request is
    rejected, the status is not 2xx, the body cannot be read as JSON, the
    body is [null], the browser does not accept the value of [auth_url]
    as a URL. *)
Inductive initiation_failure (network : Network) (href : HrefSetter)
  : error -> Prop :=
| transport_error (e : error) :
    network login_url login_init = Thrown e ->
    initiation_failure network href e
| bad_status (response : Response) :
    network login_url login_init = Normal response ->
    ok response = false ->
    initiation_failure network href (Error "Failed to initiate X login")
| unreadable_body (response : Response) (e : error) :
    network login_url login_init = Normal response ->
    ok response = true ->
    json_body response = Thrown e ->
    initiation_failure network href e
| null_body (response : Response) :
    network login_url login_init = Normal response ->
    ok response = true ->
    json_body response = Normal VNull ->
    initiation_failure network href (TypeError_read "null" "auth_url")
| rejected_url (response : Response) (data auth_url : value) (e : error) :
    network login_url login_init = Normal response ->
    ok response = true ->
    json_body response = Normal data ->
    get_auth_url data = Normal auth_url ->
    href auth_url = Thrown e ->
    initiation_failure network href e.

(** A network that answers every request with the same completion. *)
Definition always (o : completion Response) : Network := fun _ _ => o.

(** A browser for which every assigned value is a URL, as one is whose
    document has an [http] base, and one for which none is. *)
Definition accepts_all : HrefSetter := fun _ => Normal tt.
Definition rejects_all : HrefSetter :=
  fun _ => Thrown (mkError "SyntaxError" "Invalid URL").

(** [settles href b p]: run from a state cell holding [b], the body [p]
    has the cell at [true] whenever it is suspended and at [false] when it
    ends. *)
Fixpoint settles (href : HrefSetter) (b : bool) (p : prog unit) : Prop :=
  match p with
  | Ret _ | Throw _ => b = false
  | Do eff k => settles href (set_state b eff) k
  | Navigate v k => settles href b (k (href v))
  | Await c k => b = true /\ forall o, settles href true (k o)
  end.

Definition task_settles (href : HrefSetter) (t : suspended) : Prop :=
  match t with
  | Suspended _ k => forall o, settles href true (k o)
  end.

(** The invariant of a mounted network-backed component: what is in the
    document is a rendering of the component, disabled whenever the cell
    is [true]; either nothing is outstanding and the cell is [false], or
    one invocation is outstanding and the cell is [true]. *)
Definition inv (href : HrefSetter) (s : instance) : Prop :=
  exists d : bool,
    dom s = view d /\
    ((loading s = false /\ tasks s = []) \/
     (loading s = true /\ d = true /\
      exists t, tasks s = [t] /\ task_settles href t)).

(** The invariant of a mounted stub. *)
Definition stub_inv (s : instance) : Prop :=
  loading s = false /\ dom s = AuthPageStub.view /\ tasks s = [] /\
  Forall (fun eff => eff = ConsoleLog "Login with X clicked") (log s).

End Props.
Import Props.

(** ** Counting what an instance has done *)

Module Ledger.

Definition is_reset (eff : effect) : bool :=
  match eff with SetLoading false => true | _ => false end.
Definition is_error_log (eff : effect) : bool :=
  match eff with ConsoleError _ _ => true | _ => false end.
Definition is_click (ev : event) : bool :=
  match ev with Click => true | _ => false end.

(** The requests sent and the calls of [setLoading(false)] in a log, and
    the activations in a sequence of events. *)
Definition fetches (effs : list effect) : nat :=
  length (List.filter is_fetch effs).
Definition resets (effs : list effect) : nat :=
  length (List.filter is_reset effs).
Definition clicks (evs : list event) : nat :=
  length (List.filter is_click evs).

(** [tidy href n p]: having called [setLoading(false)] [n] times since it
    was last resumed, the body [p] sends no request on any path, has not
    called it when it is suspended again, and has called it once when it
    ends. *)
Fixpoint tidy (href : HrefSetter) (n : nat) (p : prog unit) : Prop :=
  match p with
  | Ret _ | Throw _ => n = 1
  | Do eff k =>
      is_fetch eff = false /\
      tidy href (if is_reset eff then S n else n) k
  | Navigate v k => tidy href n (k (href v))
  | Await c k =>
      n = 0 /\ is_fetch (effect_of_call c) = false /\
      forall o, tidy href 0 (k o)
  end.

Definition task_tidy (href : HrefSetter) (t : suspended) : Prop :=
  match t with
  | Suspended _ k => forall o, tidy href 0 (k o)
  end.

(** The books of a mounted network-backed component: every request sent
    is either still outstanding or has been followed by its
    [setLoading(false)]. *)
Definition ledger (href : HrefSetter) (s : instance) : Prop :=
  Forall (task_tidy href) (tasks s) /\
  fetches (log s) = resets (log s) + length (tasks s).

End Ledger.
Import Ledger.

(** ** The handler, path by path *)

Section Paths.

Import AuthPage.

Variable network : Network.
Variable href : HrefSetter.

Lemma run_rejected (e : error) :
  network login_url login_init = Thrown e ->
  run network href handleLogin
  = (SetLoading true :: Fetch login_url login_init :: failure_tail e, Normal tt).
Proof.
  intros Hnet. unfold handleLogin. cbn.
  change (network "/api/v1/auth/x/login" _) with (network login_url login_init).
  rewrite Hnet. reflexivity.
Qed.

Lemma run_bad_status (response : Response) :
  network login_url login_init = Normal response ->
  ok response = false ->
  run network href handleLogin
  = (SetLoading true :: Fetch login_url login_init
       :: failure_tail (Error "Failed to initiate X login"), Normal tt).
Proof.
  intros Hnet Hok. unfold handleLogin. cbn.
  change (network "/api/v1/auth/x/login" _) with (network login_url login_init).
  rewrite Hnet. cbn. fold (ok response). rewrite Hok. reflexivity.
Qed.

Lemma run_unreadable (response : Response) (e : error) :
  network login_url login_init = Normal response ->
  ok response = true ->
  json_body response = Thrown e ->
  run network href handleLogin
  = (SetLoading true :: Fetch login_url login_init
       :: Json (status response) :: failure_tail e, Normal tt).
Proof.
  intros Hnet Hok Hbody. unfold handleLogin. cbn.
  change (network "/api/v1/auth/x/login" _) with (network login_url login_init).
  rewrite Hnet. cbn. fold (ok response). rewrite Hok. cbn.
  rewrite Hbody. reflexivity.
Qed.

(** With a 2xx status and a parsed body the run depends on the read of
    [auth_url] and on what the browser does with the value. *)
Lemma run_parsed (response : Response) (data : value) :
  network login_url login_init = Normal response ->
  ok response = true ->
  json_body response = Normal data ->
  run network href handleLogin
  = match get_auth_url data with
    | Normal auth_url =>
        match href auth_url with
        | Normal _ =>
            ([SetLoading true; Fetch login_url login_init; Json (status response);
              SetHref auth_url; SetLoading false], Normal tt)
        | Thrown e =>
            (SetLoading true :: Fetch login_url login_init
               :: Json (status response) :: failure_tail e, Normal tt)
        end
    | Thrown e =>
        (SetLoading true :: Fetch login_url login_init
           :: Json (status response) :: failure_tail e, Normal tt)
    end.
Proof.
  intros Hnet Hok Hbody. unfold handleLogin. cbn.
  change (network "/api/v1/auth/x/login" _) with (network login_url login_init).
  rewrite Hnet. cbn. fold (ok response). rewrite Hok. cbn.
  rewrite Hbody. cbn. destruct (get_auth_url data) as [v | e]; cbn; [|reflexivity].
  destruct (href v) as [[] | e]; reflexivity.
Qed.

End Paths.

(** ** Runs and their synchronous segments *)

Section Segments.

Variable network : Network.
Variable href : HrefSetter.

(** The effects of a whole run are those up to the first [await], followed
    by those of the rest of the body run on what the awaited call settles
    to. *)
Lemma run_by_segments (p : prog unit) :
  fst (run network href p)
  = fst (run_sync href p)
    ++ match snd (run_sync href p) with
       | Some (Suspended c k) => fst (run network href (k (settle network c)))
       | None => []
       end.
Proof.
  induction p as [a | e | eff k IH | v k IH | B c k _].
  - reflexivity.
  - reflexivity.
  - cbn [run run_sync].
    destruct (run network href k) as [effs r].
    destruct (run_sync href k) as [effs' rest].
    cbn [fst snd] in *. rewrite IH. reflexivity.
  - specialize (IH (href v)). cbn [run run_sync].
    destruct (run network href (k (href v))) as [effs r].
    destruct (run_sync href (k (href v))) as [effs' rest].
    cbn [fst snd] in *. rewrite IH, app_assoc. reflexivity.
  - cbn [run run_sync fst snd].
    destruct (run network href (k (settle network c))) as [effs r].
    reflexivity.
Qed.

End Segments.

(** ** The invariant of a mounted instance *)

Section Reachable.

Import AuthPage.

Variable href : HrefSetter.

Lemma state_after_cons (eff : effect) (effs : list effect) (b : bool) :
  state_after (eff :: effs) b = state_after effs (set_state b eff).
Proof. reflexivity. Qed.

Lemma state_after_app (effs1 effs2 : list effect) (b : bool) :
  state_after (effs1 ++ effs2) b = state_after effs2 (state_after effs1 b).
Proof. apply fold_left_app. Qed.

Lemma set_state_call {B : Type} (c : call B) (b : bool) :
  set_state b (effect_of_call c) = b.
Proof. destruct c; reflexivity. Qed.

Lemma state_after_href (v : value) (o : completion unit) (b : bool) :
  state_after (href_effect v o) b = b.
Proof. destruct o; reflexivity. Qed.

(** A body that settles leaves the cell at [true] where it is suspended
    and at [false] where it ends. *)
Lemma settles_run_sync (p : prog unit) :
  forall b, settles href b p ->
  match snd (run_sync href p) with
  | Some t => state_after (fst (run_sync href p)) b = true /\ task_settles href t
  | None => state_after (fst (run_sync href p)) b = false
  end.
Proof.
  induction p as [a | e | eff k IH | v k IH | B c k _]; intros b Hp.
  - exact Hp.
  - exact Hp.
  - specialize (IH _ Hp). cbn [run_sync].
    destruct (run_sync href k) as [effs rest]. cbn [fst snd] in *.
    rewrite state_after_cons. exact IH.
  - specialize (IH (href v) _ Hp). cbn [run_sync].
    destruct (run_sync href (k (href v))) as [effs rest]. cbn [fst snd] in *.
    rewrite state_after_app, state_after_href. exact IH.
  - destruct Hp as [-> Hk]. cbn [run_sync fst snd]. split; [|exact Hk].
    rewrite state_after_cons. apply set_state_call.
Qed.

Lemma handleLogin_settles (b : bool) : settles href b handleLogin.
Proof.
  unfold handleLogin; cbn. split; [reflexivity|].
  intros [response | e]; cbn; [|reflexivity].
  destruct (negb _); cbn; [reflexivity|].
  split; [reflexivity|].
  intros [data | e]; cbn; [|reflexivity].
  destruct (get_auth_url data) as [v | e]; cbn; [|reflexivity].
  destruct (href v); reflexivity.
Qed.

(** The synchronous part of the handler: the state is set, the request is
    sent, and the rest waits for the response. *)
Lemma run_sync_handleLogin :
  exists k : completion Response -> prog unit,
    run_sync href handleLogin
    = ([SetLoading true; Fetch login_url login_init],
       Some (Suspended (fetch login_url login_init) k))
    /\ forall o, settles href true (k o).
Proof.
  eexists. split; [reflexivity|].
  pose proof (handleLogin_settles false) as H. cbn in H. apply H.
Qed.

Lemma on_response_settles (o : completion Response) (t : suspended) (p : prog unit) :
  task_settles href t -> on_response o t = Some p -> settles href true p.
Proof.
  destruct t as [B c k]; destruct c; cbn; intros Hk Hp; [|discriminate].
  injection Hp as <-. apply Hk.
Qed.

Lemma on_body_settles (t : suspended) (p : prog unit) :
  task_settles href t -> on_body t = Some p -> settles href true p.
Proof.
  destruct t as [B c k]; destruct c; cbn; intros Hk Hp; [discriminate|].
  injection Hp as <-. apply Hk.
Qed.

Lemma control_view (d : bool) :
  control (view d)
  = Some ({| onClick := handleLogin;
             disabled := Some d;
             size := "lg";
             className := "flex items-center gap-2 px-8 py-3 text-lg" |},
          if d then "Connecting..." else "Login with X").
Proof. destruct d; reflexivity. Qed.

Lemma inv_mount : inv href (mount AuthPage).
Proof. exists false. split; [reflexivity|]. left. split; reflexivity. Qed.

(** Resuming the one outstanding invocation keeps the invariant. *)
Lemma inv_resume (s : instance) (d : bool) (t : suspended) (p : prog unit) :
  dom s = view d -> d = true -> tasks s = [t] -> settles href true p ->
  loading s = true ->
  inv href (resume href 0 p s).
Proof.
  intros Hdom Hd Htasks Hp Hl.
  pose proof (settles_run_sync p true Hp) as Hrun.
  unfold resume. destruct (run_sync href p) as [effs rest]; cbn in Hrun.
  exists d; cbn. split; [exact Hdom|].
  rewrite Hl, Htasks. destruct rest as [t'|].
  - right. destruct Hrun as [Hb Ht']. split; [exact Hb|]. split; [exact Hd|].
    exists t'. split; [reflexivity | exact Ht'].
  - left. split; [exact Hrun | reflexivity].
Qed.

(** A state in which one invocation is outstanding, restated. *)
Lemma inv_pending (s : instance) (d : bool) (t : suspended) :
  dom s = view d -> loading s = true -> d = true -> tasks s = [t] ->
  task_settles href t -> inv href s.
Proof.
  intros Hdom Hl Hd Ht Hs. exists d. split; [exact Hdom|]. right.
  split; [exact Hl|]. split; [exact Hd|]. exists t. split; assumption.
Qed.

Lemma inv_step (s : instance) (ev : event) :
  inv href s -> inv href (step AuthPage href s ev).
Proof.
  intros [d [Hdom Hcases]]. destruct ev as [| i o | i |]; cbn [step].
  - (* Click *)
    rewrite Hdom, control_view.
    unfold activate, is_disabled; cbn [disabled onClick].
    destruct d.
    + exists true. split; [exact Hdom | exact Hcases].
    + destruct Hcases as [[Hl Ht] | [_ [Hd _]]]; [|discriminate].
      destruct run_sync_handleLogin as [k [Hrun Hk]].
      exists true. unfold commit, invoke. rewrite Hrun, Hl, Ht.
      split; [reflexivity|]. right.
      split; [reflexivity|]. split; [reflexivity|].
      eexists. split; [reflexivity | exact Hk].
  - (* Responds *)
    destruct Hcases as [[Hl Ht] | [Hl [Hd [t [Ht Hs]]]]].
    + rewrite Ht; cbn. exists d. split; [exact Hdom|]. left. split; assumption.
    + rewrite Ht. destruct i as [|i]; cbn.
      * destruct (on_response o t) as [p|] eqn:Hp.
        -- apply (inv_resume s d t p); try assumption.
           apply (on_response_settles o t p Hs Hp).
        -- apply (inv_pending s d t); assumption.
      * apply (inv_pending s d t); assumption.
  - (* BodyRead *)
    destruct Hcases as [[Hl Ht] | [Hl [Hd [t [Ht Hs]]]]].
    + rewrite Ht; cbn. exists d. split; [exact Hdom|]. left. split; assumption.
    + rewrite Ht. destruct i as [|i]; cbn.
      * destruct (on_body t) as [p|] eqn:Hp.
        -- apply (inv_resume s d t p); try assumption.
           apply (on_body_settles t p Hs Hp).
        -- apply (inv_pending s d t); assumption.
      * apply (inv_pending s d t); assumption.
  - (* Commit *)
    exists (loading s). split; [reflexivity|].
    destruct Hcases as [[Hl Ht] | [Hl [Hd [t [Ht Hs]]]]].
    + left. split; assumption.
    + right. split; [exact Hl|]. split; [exact Hl|]. exists t. split; assumption.
Qed.

Lemma inv_exec (evs : list event) :
  forall s, inv href s -> inv href (exec AuthPage href evs s).
Proof.
  induction evs as [|ev evs IH]; intros s Hs; cbn; [exact Hs|].
  apply IH, inv_step, Hs.
Qed.

Lemma inv_reachable (evs : list event) :
  inv href (exec AuthPage href evs (mount AuthPage)).
Proof. apply inv_exec, inv_mount. Qed.

End Reachable.

(** ** The stub's invariant *)

Section StubReachable.

Variable href : HrefSetter.

Lemma run_sync_stub :
  run_sync href AuthPageStub.handleLogin
  = ([ConsoleLog "Login with X clicked"], None).
Proof. reflexivity. Qed.

Lemma invoke_stub (s : instance) :
  invoke href AuthPageStub.handleLogin s
  = {| loading := loading s;
       dom := dom s;
       tasks := tasks s;
       log := log s ++ [ConsoleLog "Login with X clicked"] |}.
Proof.
  unfold invoke. rewrite run_sync_stub. cbn [option_list].
  rewrite app_nil_r. reflexivity.
Qed.

Lemma control_stub :
  control AuthPageStub.view
  = Some ({| onClick := AuthPageStub.handleLogin;
             disabled := None;
             size := "lg";
             className := "flex items-center gap-2 px-8 py-3 text-lg" |},
          "Login with X").
Proof. reflexivity. Qed.

Lemma stub_inv_step (s : instance) (ev : event) :
  stub_inv s -> stub_inv (step AuthPageStub.AuthPage href s ev).
Proof.
  intros (Hl & Hdom & Ht & Hlog). destruct ev as [| i o | i |]; cbn [step].
  - rewrite Hdom, control_stub.
    unfold activate, is_disabled; cbn [disabled onClick].
    rewrite invoke_stub. unfold commit; cbn.
    repeat split; try assumption.
    apply Forall_app. split; [exact Hlog|]. repeat constructor.
  - rewrite Ht. cbn. repeat split; assumption.
  - rewrite Ht. cbn. repeat split; assumption.
  - unfold commit; cbn. repeat split; assumption.
Qed.

Lemma stub_inv_exec (evs : list event) :
  forall s, stub_inv s -> stub_inv (exec AuthPageStub.AuthPage href evs s).
Proof.
  induction evs as [|ev evs IH]; intros s Hs; cbn; [exact Hs|].
  apply IH, stub_inv_step, Hs.
Qed.

Lemma stub_inv_mount : stub_inv (mount AuthPageStub.AuthPage).
Proof. repeat split. constructor. Qed.

End StubReachable.

(** ** The properties of the component *)

Import AuthPage.

Lemma ok_iff_2xx (response : Response) :
  ok response = true <-> (200 <= status response <= 299)%Z.
Proof. unfold ok. rewrite andb_true_iff, !Z.leb_le. reflexivity. Qed.

(** Every run of the handler ends with [setLoading(false)] and returns
    normally, whatever the network, the body and the browser do. *)
Lemma run_ends_with_reset (network : Network) (href : HrefSetter) :
  exists mid : list effect,
    run network href handleLogin
    = (SetLoading true :: Fetch login_url login_init :: mid ++ [SetLoading false],
       Normal tt).
Proof.
  destruct (network login_url login_init) as [response | e] eqn:Hnet.
  - destruct (ok response) eqn:Hok.
    + destruct (json_body response) as [data | e] eqn:Hbody.
      * rewrite (run_parsed network href response data Hnet Hok Hbody).
        destruct (get_auth_url data) as [v | e].
        -- destruct (href v) as [[] | e].
           ++ exists [Json (status response); SetHref v]. reflexivity.
           ++ exists [Json (status response); ConsoleError "X login error:" e;
                      Alert failure_message]. reflexivity.
        -- exists [Json (status response); ConsoleError "X login error:" e;
                   Alert failure_message]. reflexivity.
      * rewrite (run_unreadable network href response e Hnet Hok Hbody).
        exists [Json (status response); ConsoleError "X login error:" e;
                Alert failure_message]. reflexivity.
    + rewrite (run_bad_status network href response Hnet Hok).
      exists [ConsoleError "X login error:" (Error "Failed to initiate X login");
              Alert failure_message]. reflexivity.
  - rewrite (run_rejected network href e Hnet).
    exists [ConsoleError "X login error:" e; Alert failure_message]. reflexivity.
Qed.

(** An [auth_url] that is not a URL for the browser takes the handler to
    its [catch] block. *)
Example run_rejected_url :
  run (always (Normal (mkResponse 200 (Normal (VObj [("auth_url", VStr "http://")])))))
      rejects_all handleLogin
  = ([SetLoading true;
      Fetch login_url login_init;
      Json 200;
      ConsoleError "X login error:" (mkError "SyntaxError" "Invalid URL");
      Alert failure_message;
      SetLoading false],
     Normal tt).
Proof. reflexivity. Qed.

(** X6.  On a mounted instance, after any sequence of events, the state
    is pending exactly while an invocation of the handler is
    outstanding. *)
Lemma pending_iff_outstanding (href : HrefSetter) (evs : list event) :
  loading (exec AuthPage href evs (mount AuthPage))
  = negb (Nat.eqb (length (tasks (exec AuthPage href evs (mount AuthPage)))) 0).
Proof.
  destruct (inv_reachable href evs) as [d [_ [[-> ->] | [-> [_ [t [-> _]]]]]]];
    reflexivity.
Qed.

(** X12.  One login on a mounted instance (a click, then the response,
    then the body) does exactly what the whole run of the handler does on
    that response, whatever the response is. *)
Lemma login_on_instance (href : HrefSetter) (o : completion Response) :
  log (exec AuthPage href [Click; Responds 0 o; BodyRead 0] (mount AuthPage))
  = fst (run (always o) href handleLogin).
Proof.
  destruct o as [response | e]; [|reflexivity].
  destruct (ok response) eqn:Hok.
  - destruct (json_body response) as [data | e] eqn:Hbody.
    + rewrite (run_parsed (always (Normal response)) href response data
                 eq_refl Hok Hbody).
      cbn. fold (ok response). rewrite Hok. cbn. rewrite Hbody. cbn.
      destruct (get_auth_url data) as [v | e]; cbn; [|reflexivity].
      unfold resume; cbn. destruct (href v) as [[] | e]; reflexivity.
    + rewrite (run_unreadable (always (Normal response)) href response e
                 eq_refl Hok Hbody).
      cbn. fold (ok response). rewrite Hok. cbn. rewrite Hbody. reflexivity.
  - rewrite (run_bad_status (always (Normal response)) href response eq_refl Hok).
    cbn. fold (ok response). rewrite Hok. reflexivity.
Qed.

(** C1.  For every response with a 2xx status whose JSON body is an object
    with a string [auth_url], a URL the browser accepts, the handler
    assigns exactly that string, unchanged, to [window.location.href]: the
    run is state set, request sent, body read, navigation to the string,
    state reset, and nothing else. *)
Theorem C1_success_navigates_to_auth_url
    (network : Network) (href : HrefSetter)
    (response : Response) (members : list (string * value)) (auth_url : string) :
  network login_url login_init = Normal response ->
  (200 <= status response <= 299)%Z ->
  json_body response = Normal (VObj members) ->
  member "auth_url" members = Some (VStr auth_url) ->
  href (VStr auth_url) = Normal tt ->
  run network href handleLogin
  = ([SetLoading true;
      Fetch "/api/v1/auth/x/login" login_init;
      Json (status response);
      SetHref (VStr auth_url);
      SetLoading false],
     Normal tt).
Proof.
  intros Hnet Hstatus Hbody Hmember Hhref.
  rewrite (run_parsed network href response (VObj members) Hnet
             (proj2 (ok_iff_2xx response) Hstatus) Hbody).
  cbn [get_auth_url]. rewrite Hmember, Hhref. reflexivity.
Qed.

Lemma C1_success_navigates_to_auth_url_witness :
  run (always (Normal (mkResponse 200
         (Normal (VObj [("auth_url", VStr "https://provider.example/authorize?x=1")])))))
      accepts_all handleLogin
  = ([SetLoading true;
      Fetch "/api/v1/auth/x/login" login_init;
      Json 200;
      SetHref (VStr "https://provider.example/authorize?x=1");
      SetLoading false],
     Normal tt).
Proof.
  apply (C1_success_navigates_to_auth_url
           (always (Normal (mkResponse 200
              (Normal (VObj [("auth_url", VStr "https://provider.example/authorize?x=1")])))))
           accepts_all
           (mkResponse 200
              (Normal (VObj [("auth_url", VStr "https://provider.example/authorize?x=1")])))
           [("auth_url", VStr "https://provider.example/authorize?x=1")]
           "https://provider.example/authorize?x=1").
  - reflexivity.
  - cbn. lia.
  - reflexivity.
  - reflexivity.
  - reflexivity.
Defined.

(** C2.  On every exit path of the handler (rejected request, non-2xx
    status, unreadable body, a throw while the body is used or the URL is
    assigned, and the navigation itself) the handler returns normally, the
    last thing it does is [setLoading(false)], and the state it leaves is
    not pending, whatever the state was before. *)
Theorem C2_loading_reset_on_every_exit
    (network : Network) (href : HrefSetter) (before : bool) :
  snd (run network href handleLogin) = Normal tt /\
  last (fst (run network href handleLogin)) = Some (SetLoading false) /\
  state_after (fst (run network href handleLogin)) before = false.
Proof.
  destruct (run_ends_with_reset network href) as [mid ->]. cbn [fst snd].
  change (SetLoading true :: Fetch login_url login_init :: mid ++ [SetLoading false])
    with ((SetLoading true :: Fetch login_url login_init :: mid) ++ [SetLoading false]).
  split; [reflexivity|]. split.
  - apply last_snoc.
  - rewrite state_after_app. reflexivity.
Qed.

(** C3.  The handler does not look at what [data.auth_url] is.  For the
    response with status 200 and body [{}] the read gives [undefined] and
    the handler assigns it to [window.location.href]: a navigation is
    started, nothing is logged and no alert is shown. *)
Theorem C3_missing_auth_url_navigates :
  run (always (Normal (mkResponse 200 (Normal (VObj []))))) accepts_all handleLogin
  = ([SetLoading true;
      Fetch "/api/v1/auth/x/login" login_init;
      Json 200;
      SetHref VUndefined;
      SetLoading false],
     Normal tt)
  /\ List.filter is_alert
       (fst (run (always (Normal (mkResponse 200 (Normal (VObj [])))))
               accepts_all handleLogin))
     = [].
Proof. split; reflexivity. Qed.

(** C4.  After any sequence of events on a mounted instance (activations,
    settled promises, commits, in any order) at most one invocation of the
    handler is outstanding, so at most one login request is in flight; and
    an activation while the state is pending changes nothing: it calls no
    handler and sends no request. *)
Theorem C4_at_most_one_request_in_flight (href : HrefSetter) (evs : list event) :
  (length (tasks (exec AuthPage href evs (mount AuthPage))) <= 1 /\
   in_flight (exec AuthPage href evs (mount AuthPage)) <= 1) /\
  (loading (exec AuthPage href evs (mount AuthPage)) = true ->
   step AuthPage href (exec AuthPage href evs (mount AuthPage)) Click
   = exec AuthPage href evs (mount AuthPage)).
Proof.
  destruct (inv_reachable href evs) as [d [Hdom Hcases]].
  set (s := exec AuthPage href evs (mount AuthPage)) in *.
  assert (Hlen : length (tasks s) <= 1).
  { destruct Hcases as [[_ ->] | [_ [_ [t [-> _]]]]]; cbn; lia. }
  split.
  - split; [exact Hlen|]. unfold in_flight.
    pose proof (List.filter_length_le waits_for_fetch (tasks s)). lia.
  - intros Hl. destruct Hcases as [[Hl' _] | [_ [-> _]]]; [congruence|].
    cbn [step]. rewrite Hdom, control_view. reflexivity.
Qed.

Lemma C4_at_most_one_request_in_flight_witness :
  loading (exec AuthPage accepts_all [Click] (mount AuthPage)) = true /\
  step AuthPage accepts_all (exec AuthPage accepts_all [Click] (mount AuthPage)) Click
  = exec AuthPage accepts_all [Click] (mount AuthPage).
Proof.
  split.
  - reflexivity.
  - apply (proj2 (C4_at_most_one_request_in_flight accepts_all [Click])).
    reflexivity.
Defined.

(** C5.  For every response whose status is not 2xx the handler does not
    read the body: it logs [Error("Failed to initiate X login")], shows the
    failure alert and resets the state; it never assigns
    [window.location.href]. *)
Theorem C5_non_success_status_fails
    (network : Network) (href : HrefSetter) (response : Response) :
  network login_url login_init = Normal response ->
  ~ (200 <= status response <= 299)%Z ->
  run network href handleLogin
  = ([SetLoading true;
      Fetch "/api/v1/auth/x/login" login_init;
      ConsoleError "X login error:" (Error "Failed to initiate X login");
      Alert "Failed to start X login. Please try again.";
      SetLoading false],
     Normal tt)
  /\ List.filter is_json (fst (run network href handleLogin)) = []
  /\ List.filter is_navigation (fst (run network href handleLogin)) = [].
Proof.
  intros Hnet Hstatus.
  assert (Hok : ok response = false).
  { destruct (ok response) eqn:Hok; [|reflexivity].
    exfalso. apply Hstatus, ok_iff_2xx, Hok. }
  rewrite (run_bad_status network href response Hnet Hok).
  repeat split.
Qed.

Lemma C5_non_success_status_fails_witness :
  run (always (Normal (mkResponse 500 (Normal (VObj []))))) accepts_all handleLogin
  = ([SetLoading true;
      Fetch "/api/v1/auth/x/login" login_init;
      ConsoleError "X login error:" (Error "Failed to initiate X login");
      Alert "Failed to start X login. Please try again.";
      SetLoading false],
     Normal tt)
  /\ List.filter is_json
       (fst (run (always (Normal (mkResponse 500 (Normal (VObj [])))))
               accepts_all handleLogin)) = []
  /\ List.filter is_navigation
       (fst (run (always (Normal (mkResponse 500 (Normal (VObj [])))))
               accepts_all handleLogin)) = [].
Proof.
  apply (C5_non_success_status_fails
           (always (Normal (mkResponse 500 (Normal (VObj [])))))
           accepts_all
           (mkResponse 500 (Normal (VObj [])))).
  - reflexivity.
  - cbn. lia.
Defined.

(** C6.  Called in any state, the handler first calls [setLoading(true)]
    and then, before it is suspended for the first time, sends one request:
    a POST to [/api/v1/auth/x/login] with the single header
    [Content-Type: application/json] and no body.  It does nothing else
    before the response arrives, and once the click is handled the control
    is shown disabled with the label [Connecting...]. *)
Theorem C6_pending_then_post (href : HrefSetter) (s : instance) :
  (exists k : completion Response -> prog unit,
     run_sync href handleLogin
     = ([SetLoading true;
         Fetch "/api/v1/auth/x/login"
           {| method := "POST";
              headers := [("Content-Type", "application/json")];
              body := None |}],
        Some (Suspended (fetch "/api/v1/auth/x/login" login_init) k))) /\
  loading (invoke href handleLogin s) = true /\
  log (invoke href handleLogin s)
  = log s ++ [SetLoading true; Fetch "/api/v1/auth/x/login" login_init] /\
  option_map (fun c => (disabled (fst c), snd c))
    (control (dom (commit AuthPage (invoke href handleLogin s))))
  = Some (Some true, "Connecting...").
Proof.
  split; [eexists; reflexivity|].
  repeat split.
Qed.

(** C7.  For either value of the state, what is rendered has exactly one
    control, whose [onClick] is the handler: when the state is pending the
    control is disabled and its label is [Connecting...]; otherwise it is
    enabled and its label is [Login with X]. *)
Theorem C7_render_reflects_state (pending : bool) :
  buttons (view pending)
  = [({| onClick := handleLogin;
         disabled := Some pending;
         size := "lg";
         className := "flex items-center gap-2 px-8 py-3 text-lg" |},
      if pending then "Connecting..." else "Login with X")]
  /\ option_map (fun c => is_disabled (fst c)) (control (view pending))
     = Some pending
  /\ option_map (fun c => activate (fst c)) (control (view pending))
     = Some (if pending then None else Some handleLogin).
Proof. destruct pending; repeat split. Qed.

(** C8, the state after a failure.  The component has one boolean of
    state.  After a response with status 500 that boolean is what it was
    when the component was mounted: no reading of the state can call the
    mounted state [Idle] and the state after the failure [Failed]. *)
Lemma C8_no_distinct_failed_state :
  ~ exists state_of : bool -> LoginRequestState,
      state_of (initial_state AuthPage) = Idle /\
      state_of (state_after
                  (fst (run (always (Normal (mkResponse 500 (Normal (VObj [])))))
                          accepts_all handleLogin))
                  (initial_state AuthPage)) = Failed.
Proof.
  intros [state_of [Hidle Hfailed]].
  cbn in Hidle, Hfailed. rewrite Hidle in Hfailed. discriminate.
Qed.

(** C8, what a failure does.  After a rejected request, a non-2xx status,
    a body that cannot be read as JSON, a [null] body or an [auth_url] the
    browser does not accept as a URL, the handler logs the error, shows the
    failure alert and starts no navigation; it leaves the state at [false],
    the value the component is mounted with, and what is then rendered is
    the enabled control with the label [Login with X]. *)
Theorem C8_failure_returns_to_idle
    (network : Network) (href : HrefSetter) (e : error) (before : bool) :
  initiation_failure network href e ->
  (exists sent : list effect,
     fst (run network href handleLogin)
     = sent ++ [ConsoleError "X login error:" e;
                Alert "Failed to start X login. Please try again.";
                SetLoading false]) /\
  List.filter is_navigation (fst (run network href handleLogin)) = [] /\
  state_after (fst (run network href handleLogin)) before = initial_state AuthPage /\
  option_map (fun c => (is_disabled (fst c), snd c))
    (control (view (state_after (fst (run network href handleLogin)) before)))
  = Some (false, "Login with X").
Proof.
  intros [e' Hnet | response Hnet Hok | response e' Hnet Hok Hbody
          | response Hnet Hok Hbody | response data v e' Hnet Hok Hbody Hread Hhref].
  - rewrite (run_rejected network href e' Hnet). cbn [fst].
    split; [exists [SetLoading true; Fetch login_url login_init]; reflexivity|].
    repeat split.
  - rewrite (run_bad_status network href response Hnet Hok). cbn [fst].
    split; [exists [SetLoading true; Fetch login_url login_init]; reflexivity|].
    repeat split.
  - rewrite (run_unreadable network href response e' Hnet Hok Hbody). cbn [fst].
    split; [exists [SetLoading true; Fetch login_url login_init;
                    Json (status response)]; reflexivity|].
    repeat split.
  - rewrite (run_parsed network href response VNull Hnet Hok Hbody).
    cbn [fst get_auth_url].
    split; [exists [SetLoading true; Fetch login_url login_init;
                    Json (status response)]; reflexivity|].
    repeat split.
  - rewrite (run_parsed network href response data Hnet Hok Hbody), Hread, Hhref.
    cbn [fst].
    split; [exists [SetLoading true; Fetch login_url login_init;
                    Json (status response)]; reflexivity|].
    repeat split.
Qed.

Lemma C8_failure_returns_to_idle_witness :
  initiation_failure (always (Thrown (mkError "TypeError" "Failed to fetch")))
    accepts_all (mkError "TypeError" "Failed to fetch") /\
  state_after
    (fst (run (always (Thrown (mkError "TypeError" "Failed to fetch")))
            accepts_all handleLogin))
    true
  = initial_state AuthPage.
Proof.
  split.
  - apply transport_error. reflexivity.
  - apply (C8_failure_returns_to_idle
             (always (Thrown (mkError "TypeError" "Failed to fetch")))
             accepts_all
             (mkError "TypeError" "Failed to fetch") true).
    apply transport_error. reflexivity.
Defined.

(** C9.  The stub's handler runs to its end without being suspended and
    its only effect is one [console.log]: called on any instance it leaves
    the state, the document and the outstanding tasks as they are and adds
    the one line to the log; it sends no request and starts no navigation.
    Its control is not given the [disabled] prop, and after any sequence of
    events on a mounted stub the control is enabled, nothing is outstanding
    and nothing but those log lines has happened. *)
Theorem C9_stub_only_logs (href : HrefSetter) (s : instance) (evs : list event) :
  run_sync href AuthPageStub.handleLogin
  = ([ConsoleLog "Login with X clicked"], None) /\
  invoke href AuthPageStub.handleLogin s
  = {| loading := loading s;
       dom := dom s;
       tasks := tasks s;
       log := log s ++ [ConsoleLog "Login with X clicked"] |} /\
  buttons AuthPageStub.view
  = [({| onClick := AuthPageStub.handleLogin;
         disabled := None;
         size := "lg";
         className := "flex items-center gap-2 px-8 py-3 text-lg" |},
      "Login with X")] /\
  option_map (fun c => is_disabled (fst c))
    (control (dom (exec AuthPageStub.AuthPage href evs (mount AuthPageStub.AuthPage))))
  = Some false /\
  tasks (exec AuthPageStub.AuthPage href evs (mount AuthPageStub.AuthPage)) = [] /\
  loading (exec AuthPageStub.AuthPage href evs (mount AuthPageStub.AuthPage))
  = initial_state AuthPageStub.AuthPage /\
  List.filter (fun eff => is_fetch eff || is_navigation eff || is_set_state eff)
    (log (exec AuthPageStub.AuthPage href evs (mount AuthPageStub.AuthPage))) = [].
Proof.
  split; [reflexivity|]. split; [apply invoke_stub|]. split; [reflexivity|].
  destruct (stub_inv_exec href evs _ stub_inv_mount) as (Hl & Hdom & Ht & Hlog).
  rewrite Hdom, Ht, Hl. repeat split.
  induction Hlog as [|eff effs -> _ IH]; [reflexivity | exact IH].
Qed.

(** C10.  The handler never reads the state: called on any instance, also
    one whose state is already pending, it sets the state and sends the
    login request, which adds one outstanding invocation and one request in
    flight.  What keeps a second request from being sent is the [disabled]
    prop of the rendered control, which is the state; two calls of the
    handler in a row leave two requests in flight. *)
Theorem C10_handler_ignores_state
    (href : HrefSetter) (s : instance) (pending : bool) :
  loading (invoke href handleLogin s) = true /\
  log (invoke href handleLogin s)
  = log s ++ [SetLoading true; Fetch "/api/v1/auth/x/login" login_init] /\
  length (tasks (invoke href handleLogin s)) = S (length (tasks s)) /\
  in_flight (invoke href handleLogin s) = S (in_flight s) /\
  option_map (fun c => (onClick (fst c), disabled (fst c))) (control (view pending))
  = Some (handleLogin, Some pending) /\
  in_flight (invoke href handleLogin (invoke href handleLogin (mount AuthPage))) = 2.
Proof.
  split; [reflexivity|]. split; [reflexivity|].
  split.
  { unfold invoke.
    destruct (run_sync_handleLogin href) as [k [-> _]]. cbn [tasks option_list].
    rewrite length_app. cbn. lia. }
  split.
  { unfold in_flight, invoke.
    destruct (run_sync_handleLogin href) as [k [-> _]]. cbn [tasks option_list].
    rewrite List.filter_app, length_app. cbn. lia. }
  split; [destruct pending; reflexivity | reflexivity].
Qed.

(** ** Further properties of the handler *)

(** The paths of [handleLogin], for proofs by cases on what the network,
    the body and the browser do. *)
Ltac handler_paths network href :=
  let response := fresh "response" in
  let data := fresh "data" in
  let v := fresh "v" in
  let e := fresh "e" in
  let Hnet := fresh "Hnet" in
  let Hok := fresh "Hok" in
  let Hbody := fresh "Hbody" in
  let Hread := fresh "Hread" in
  let Hhref := fresh "Hhref" in
  destruct (network login_url login_init) as [response | e] eqn:Hnet;
  [ destruct (ok response) eqn:Hok;
    [ destruct (json_body response) as [data | e] eqn:Hbody;
      [ rewrite (run_parsed network href response data Hnet Hok Hbody);
        destruct (get_auth_url data) as [v | e] eqn:Hread;
        [ destruct (href v) as [[] | e] eqn:Hhref | ]
      | rewrite (run_unreadable network href response e Hnet Hok Hbody) ]
    | rewrite (run_bad_status network href response Hnet Hok) ]
  | rewrite (run_rejected network href e Hnet) ].

(** X1.  Whatever the network, the body and the browser do, a run of the
    handler has one of three shapes and returns normally: the request, the
    body read and a navigation; the request and the failure report; or the
    request, the body read and the failure report.  Each ends with
    [setLoading(false)]; there is no other path. *)
Theorem X1_three_shapes_of_a_run (network : Network) (href : HrefSetter) :
  (exists (code : Z) (target : value),
     run network href handleLogin
     = ([SetLoading true; Fetch login_url login_init; Json code;
         SetHref target; SetLoading false], Normal tt)) \/
  (exists e : error,
     run network href handleLogin
     = ([SetLoading true; Fetch login_url login_init;
         ConsoleError "X login error:" e; Alert failure_message;
         SetLoading false], Normal tt)) \/
  (exists (code : Z) (e : error),
     run network href handleLogin
     = ([SetLoading true; Fetch login_url login_init; Json code;
         ConsoleError "X login error:" e; Alert failure_message;
         SetLoading false], Normal tt)).
Proof.
  handler_paths network href.
  - left. eexists _, _. reflexivity.
  - right; right. eexists _, _. reflexivity.
  - right; right. eexists _, _. reflexivity.
  - right; right. eexists _, _. reflexivity.
  - right; left. eexists. reflexivity.
  - right; left. eexists. reflexivity.
Qed.

(** X2.  On every path the handler sends exactly one request, the POST to
    the login path: it never retries and never gives up before sending. *)
Theorem X2_one_request_per_run (network : Network) (href : HrefSetter) :
  List.filter is_fetch (fst (run network href handleLogin))
  = [Fetch "/api/v1/auth/x/login" login_init].
Proof. handler_paths network href; reflexivity. Qed.

(** X3.  Every run ends in exactly one of two ways: one navigation, with
    no alert and nothing logged to the console; or no navigation, with one
    alert (always the same text) and one [console.error] carrying the
    error. *)
Theorem X3_navigation_or_report (network : Network) (href : HrefSetter) :
  (exists target : value,
     List.filter is_navigation (fst (run network href handleLogin)) = [SetHref target] /\
     List.filter is_alert (fst (run network href handleLogin)) = [] /\
     List.filter is_error_log (fst (run network href handleLogin)) = []) \/
  (exists e : error,
     List.filter is_navigation (fst (run network href handleLogin)) = [] /\
     List.filter is_alert (fst (run network href handleLogin))
     = [Alert "Failed to start X login. Please try again."] /\
     List.filter is_error_log (fst (run network href handleLogin))
     = [ConsoleError "X login error:" e]).
Proof.
  handler_paths network href;
    [ left; eexists; repeat split
    | right; eexists; repeat split .. ].
Qed.

(** X4.  The body of the response is read exactly when the request
    resolves with a 2xx status: once then, and never after a rejected
    request or another status. *)
Theorem X4_body_read_iff_ok (network : Network) (href : HrefSetter) :
  List.filter is_json (fst (run network href handleLogin))
  = match network login_url login_init with
    | Normal response =>
        if ok response then [Json (status response)] else []
    | Thrown _ => []
    end.
Proof. handler_paths network href; reflexivity. Qed.

(** X5.  The handler does not check what [data.auth_url] is.  For a 2xx
    response whose body parses to a value on which the read does not
    throw, it assigns whatever the read gives ([undefined] for a missing
    field, a number, an object, ...) to [window.location.href], and when
    the browser accepts the value the run is a navigation to it with no
    failure report. *)
Theorem X5_auth_url_is_not_checked
    (network : Network) (href : HrefSetter)
    (response : Response) (data target : value) :
  network login_url login_init = Normal response ->
  ok response = true ->
  json_body response = Normal data ->
  get_auth_url data = Normal target ->
  href target = Normal tt ->
  run network href handleLogin
  = ([SetLoading true;
      Fetch "/api/v1/auth/x/login" login_init;
      Json (status response);
      SetHref target;
      SetLoading false],
     Normal tt).
Proof.
  intros Hnet Hok Hbody Hread Hhref.
  rewrite (run_parsed network href response data Hnet Hok Hbody), Hread, Hhref.
  reflexivity.
Qed.

Lemma X5_auth_url_is_not_checked_witness :
  run (always (Normal (mkResponse 201 (Normal (VObj [("auth_url", VNum 42 0)])))))
      accepts_all handleLogin
  = ([SetLoading true;
      Fetch "/api/v1/auth/x/login" login_init;
      Json 201;
      SetHref (VNum 42 0);
      SetLoading false],
     Normal tt).
Proof.
  apply (X5_auth_url_is_not_checked
           (always (Normal (mkResponse 201 (Normal (VObj [("auth_url", VNum 42 0)])))))
           accepts_all
           (mkResponse 201 (Normal (VObj [("auth_url", VNum 42 0)])))
           (VObj [("auth_url", VNum 42 0)])
           (VNum 42 0));
    reflexivity.
Defined.

(** ** Further properties of a mounted instance *)

Section Books.

Variable href : HrefSetter.

Lemma fetches_app (effs1 effs2 : list effect) :
  fetches (effs1 ++ effs2) = fetches effs1 + fetches effs2.
Proof. unfold fetches. rewrite List.filter_app, length_app. reflexivity. Qed.

Lemma resets_app (effs1 effs2 : list effect) :
  resets (effs1 ++ effs2) = resets effs1 + resets effs2.
Proof. unfold resets. rewrite List.filter_app, length_app. reflexivity. Qed.

Lemma fetches_cons (eff : effect) (effs : list effect) :
  fetches (eff :: effs) = (if is_fetch eff then 1 else 0) + fetches effs.
Proof. unfold fetches. cbn [List.filter]. destruct (is_fetch eff); reflexivity. Qed.

Lemma resets_cons (eff : effect) (effs : list effect) :
  resets (eff :: effs) = (if is_reset eff then 1 else 0) + resets effs.
Proof. unfold resets. cbn [List.filter]. destruct (is_reset eff); reflexivity. Qed.

Lemma href_effect_counts (v : value) (o : completion unit) :
  fetches (href_effect v o) = 0 /\ resets (href_effect v o) = 0.
Proof. destruct o; split; reflexivity. Qed.

Lemma call_is_no_reset {B : Type} (c : call B) :
  is_reset (effect_of_call c) = false.
Proof. destruct c; reflexivity. Qed.

(** A tidy body sends nothing up to its next suspension, and has called
    [setLoading(false)] once exactly when it has ended. *)
Lemma tidy_run_sync (p : prog unit) :
  forall n, tidy href n p ->
  fetches (fst (run_sync href p)) = 0 /\
  match snd (run_sync href p) with
  | Some t => n + resets (fst (run_sync href p)) = 0 /\ task_tidy href t
  | None => n + resets (fst (run_sync href p)) = 1
  end.
Proof.
  induction p as [a | e | eff k IH | v k IH | B c k _]; intros n Hp.
  - split; [reflexivity|]. cbn. cbn in Hp. lia.
  - split; [reflexivity|]. cbn. cbn in Hp. lia.
  - destruct Hp as [Heff Hk]. specialize (IH _ Hk). cbn [run_sync].
    destruct (run_sync href k) as [effs rest]. cbn [fst snd] in *.
    rewrite fetches_cons, resets_cons, Heff.
    destruct IH as [-> IH]. split; [reflexivity|].
    destruct (is_reset eff); destruct rest as [t|];
      [ destruct IH as [IH Ht]; split; [lia | exact Ht] | lia
      | destruct IH as [IH Ht]; split; [lia | exact Ht] | lia ].
  - specialize (IH (href v) _ Hp). cbn [run_sync].
    destruct (run_sync href (k (href v))) as [effs rest]. cbn [fst snd] in *.
    rewrite fetches_app, resets_app.
    destruct (href_effect_counts v (href v)) as [-> ->]. exact IH.
  - destruct Hp as [-> [Hc Hk]]. cbn [run_sync fst snd].
    rewrite fetches_cons, resets_cons, Hc, call_is_no_reset.
    split; [reflexivity|]. split; [reflexivity | exact Hk].
Qed.

(** What the handler leaves suspended after its synchronous part is
    tidy. *)
Lemma run_sync_handleLogin_tidy :
  exists k : completion Response -> prog unit,
    run_sync href handleLogin
    = ([SetLoading true; Fetch login_url login_init],
       Some (Suspended (fetch login_url login_init) k))
    /\ forall o, tidy href 0 (k o).
Proof.
  eexists. split; [reflexivity|].
  intros [response | e]; cbn; [|repeat split].
  destruct (negb _); cbn; [repeat split|].
  split; [reflexivity|]. split; [reflexivity|].
  intros [data | e]; cbn; [|repeat split].
  destruct (get_auth_url data) as [v | e]; cbn; [|repeat split].
  destruct (href v); cbn; repeat split.
Qed.

Lemma on_response_tidy (o : completion Response) (t : suspended) (p : prog unit) :
  task_tidy href t -> on_response o t = Some p -> tidy href 0 p.
Proof.
  destruct t as [B c k]; destruct c; cbn; intros Hk Hp; [|discriminate].
  injection Hp as <-. apply Hk.
Qed.

Lemma on_body_tidy (t : suspended) (p : prog unit) :
  task_tidy href t -> on_body t = Some p -> tidy href 0 p.
Proof.
  destruct t as [B c k]; destruct c; cbn; intros Hk Hp; [discriminate|].
  injection Hp as <-. apply Hk.
Qed.

Lemma ledger_mount : ledger href (mount AuthPage).
Proof. split; [constructor | reflexivity]. Qed.

(** Resuming the one outstanding invocation keeps the books and sends
    nothing. *)
Lemma ledger_resume (s : instance) (t : suspended) (p : prog unit) :
  tasks s = [t] -> tidy href 0 p ->
  fetches (log s) = resets (log s) + 1 ->
  ledger href (resume href 0 p s) /\
  fetches (log (resume href 0 p s)) = fetches (log s).
Proof.
  intros Ht Hp Hbooks.
  pose proof (tidy_run_sync p 0 Hp) as [Hnone Hrun].
  unfold resume, ledger. destruct (run_sync href p) as [effs rest].
  cbn [fst snd tasks log] in *. rewrite Ht, fetches_app, resets_app, Hnone.
  destruct rest as [t'|].
  - destruct Hrun as [Hr Ht']. cbn. split; [split|]; [|lia..].
    constructor; [exact Ht' | constructor].
  - cbn. split; [split|]; [constructor | lia..].
Qed.

Lemma ledger_same (s : instance) (n : nat) :
  ledger href s ->
  ledger href s /\ fetches (log s) <= fetches (log s) + n.
Proof. intros H. split; [exact H | lia]. Qed.

Lemma ledger_step (s : instance) (ev : event) :
  inv href s -> ledger href s ->
  ledger href (step AuthPage href s ev) /\
  fetches (log (step AuthPage href s ev))
  <= fetches (log s) + (if is_click ev then 1 else 0).
Proof.
  intros [d [Hdom Hcases]] [Htidy Hbooks].
  destruct ev as [| i o | i |]; cbn [step is_click].
  - (* Click *)
    rewrite Hdom, control_view.
    unfold activate, is_disabled; cbn [disabled onClick].
    destruct d; [apply ledger_same; split; assumption|].
    destruct Hcases as [[Hl Ht] | [_ [Hd _]]]; [|discriminate].
    destruct run_sync_handleLogin_tidy as [k [Hrun Hk]].
    unfold commit, invoke, ledger. rewrite Hrun. clear Hrun. cbn [tasks log].
    rewrite Ht in *. rewrite fetches_app, resets_app. cbn in *.
    split; [split|]; [|lia..].
    constructor; [exact Hk | constructor].
  - (* Responds *)
    destruct Hcases as [[Hl Ht] | [Hl [Hd [t [Ht Hs]]]]].
    + rewrite Ht, lookup_nil; cbn. apply ledger_same; split; assumption.
    + rewrite Ht. destruct i as [|i]; cbn; [|apply ledger_same; split; assumption].
      destruct (on_response o t) as [p|] eqn:Hp;
        [|apply ledger_same; split; assumption].
      rewrite Ht in Htidy, Hbooks.
      destruct (ledger_resume s t p Ht) as [Hledger Hsame].
      * apply (on_response_tidy o t p); [|exact Hp].
        inversion Htidy; assumption.
      * cbn in Hbooks. exact Hbooks.
      * split; [exact Hledger | lia].
  - (* BodyRead *)
    destruct Hcases as [[Hl Ht] | [Hl [Hd [t [Ht Hs]]]]].
    + rewrite Ht, lookup_nil; cbn. apply ledger_same; split; assumption.
    + rewrite Ht. destruct i as [|i]; cbn; [|apply ledger_same; split; assumption].
      destruct (on_body t) as [p|] eqn:Hp;
        [|apply ledger_same; split; assumption].
      rewrite Ht in Htidy, Hbooks.
      destruct (ledger_resume s t p Ht) as [Hledger Hsame].
      * apply (on_body_tidy t p); [|exact Hp].
        inversion Htidy; assumption.
      * cbn in Hbooks. exact Hbooks.
      * split; [exact Hledger | lia].
  - (* Commit *)
    apply (ledger_same (commit AuthPage s)). split; assumption.
Qed.

Lemma clicks_cons (ev : event) (evs : list event) :
  clicks (ev :: evs) = (if is_click ev then 1 else 0) + clicks evs.
Proof. unfold clicks. cbn [List.filter]. destruct (is_click ev); reflexivity. Qed.

Lemma ledger_exec (evs : list event) :
  forall s, inv href s -> ledger href s ->
  ledger href (exec AuthPage href evs s) /\
  fetches (log (exec AuthPage href evs s)) <= fetches (log s) + clicks evs.
Proof.
  induction evs as [|ev evs IH]; intros s Hinv Hledger.
  - cbn. split; [exact Hledger | unfold clicks; cbn; lia].
  - destruct (ledger_step s ev Hinv Hledger) as [Hledger' Hle].
    destruct (IH _ (inv_step href s ev Hinv) Hledger') as [Hend Hle'].
    cbn [exec fold_left] in *. split; [exact Hend|].
    rewrite clicks_cons. unfold exec in Hle'. lia.
Qed.

End Books.

Lemma exec_app (C : component) (href : HrefSetter)
    (evs1 evs2 : list event) (s : instance) :
  exec C href (evs1 ++ evs2) s = exec C href evs2 (exec C href evs1 s).
Proof. apply fold_left_app. Qed.

(** X7.  After any sequence of events, whenever the state is pending the
    document shows the control disabled with the label [Connecting...]. *)
Theorem X7_pending_is_visible (href : HrefSetter) (evs : list event) :
  loading (exec AuthPage href evs (mount AuthPage)) = true ->
  option_map (fun c => (is_disabled (fst c), snd c))
    (control (dom (exec AuthPage href evs (mount AuthPage))))
  = Some (true, "Connecting...").
Proof.
  intros Hl.
  destruct (inv_reachable href evs) as [d [Hdom [[Hl' _] | [_ [-> _]]]]];
    [congruence|].
  rewrite Hdom. reflexivity.
Qed.

Lemma X7_pending_is_visible_witness :
  option_map (fun c => (is_disabled (fst c), snd c))
    (control (dom (exec AuthPage accepts_all [Click] (mount AuthPage))))
  = Some (true, "Connecting...").
Proof.
  apply (X7_pending_is_visible accepts_all [Click]). reflexivity.
Defined.

(** X8.  The control can always be used again: after any sequence of
    events, when the state is not pending, the next commit enables the
    control and a click then starts a new invocation, which sets the state
    and sends one login request. *)
Theorem X8_control_is_reusable (href : HrefSetter) (evs : list event) :
  loading (exec AuthPage href evs (mount AuthPage)) = false ->
  loading (exec AuthPage href (evs ++ [Commit; Click]) (mount AuthPage)) = true /\
  in_flight (exec AuthPage href (evs ++ [Commit; Click]) (mount AuthPage)) = 1 /\
  log (exec AuthPage href (evs ++ [Commit; Click]) (mount AuthPage))
  = log (exec AuthPage href evs (mount AuthPage))
    ++ [SetLoading true; Fetch "/api/v1/auth/x/login" login_init].
Proof.
  intros Hl. rewrite exec_app.
  destruct (inv_reachable href evs) as [d [Hdom [[_ Ht] | [Hl' _]]]];
    [|congruence].
  set (s := exec AuthPage href evs (mount AuthPage)) in *.
  destruct (run_sync_handleLogin href) as [k [Hrun _]].
  assert (Hnext : exec AuthPage href [Commit; Click] s
                  = {| loading := true;
                       dom := view true;
                       tasks := [Suspended (fetch login_url login_init) k];
                       log := log s ++ [SetLoading true; Fetch login_url login_init] |}).
  { unfold exec. cbn [fold_left step].
    change (dom (commit AuthPage s)) with (view (loading s)).
    rewrite Hl, control_view.
    unfold activate, is_disabled; cbn [disabled onClick].
    unfold commit, invoke. rewrite Hrun. cbn [loading tasks log dom].
    rewrite Ht. reflexivity. }
  rewrite Hnext. repeat split.
Qed.

Lemma X8_control_is_reusable_witness :
  in_flight
    (exec AuthPage accepts_all
       ([Click; Responds 0 (Thrown (mkError "TypeError" "Failed to fetch"))]
        ++ [Commit; Click])
       (mount AuthPage))
  = 1.
Proof.
  apply (X8_control_is_reusable accepts_all
           [Click; Responds 0 (Thrown (mkError "TypeError" "Failed to fetch"))]).
  reflexivity.
Defined.

(** X9.  After any sequence of events every login request the component
    has sent is accounted for: the requests sent are as many as the calls
    of [setLoading(false)] plus the invocations still outstanding. *)
Theorem X9_requests_are_settled_or_outstanding
    (href : HrefSetter) (evs : list event) :
  fetches (log (exec AuthPage href evs (mount AuthPage)))
  = resets (log (exec AuthPage href evs (mount AuthPage)))
    + length (tasks (exec AuthPage href evs (mount AuthPage))).
Proof.
  destruct (ledger_exec href evs (mount AuthPage)
              (inv_mount href) (ledger_mount href)) as [[_ Hbooks] _].
  exact Hbooks.
Qed.

(** X10.  The component sends no request of its own: after any sequence
    of events the requests sent are at most the activations in it. *)
Theorem X10_no_request_without_click (href : HrefSetter) (evs : list event) :
  fetches (log (exec AuthPage href evs (mount AuthPage))) <= clicks evs.
Proof.
  destruct (ledger_exec href evs (mount AuthPage)
              (inv_mount href) (ledger_mount href)) as [_ Hle].
  exact Hle.
Qed.

(** Each event on a mounted stub adds its one log line when it is a click
    and nothing otherwise. *)
Lemma stub_log_exec (href : HrefSetter) (evs : list event) :
  forall s, stub_inv s ->
  log (exec AuthPageStub.AuthPage href evs s)
  = log s ++ repeat (ConsoleLog "Login with X clicked") (clicks evs).
Proof.
  induction evs as [|ev evs IH]; intros s Hs.
  - cbn. rewrite app_nil_r. reflexivity.
  - change (exec AuthPageStub.AuthPage href (ev :: evs) s)
      with (exec AuthPageStub.AuthPage href evs
              (step AuthPageStub.AuthPage href s ev)).
    rewrite (IH _ (stub_inv_step href s ev Hs)), clicks_cons.
    destruct Hs as (Hl & Hdom & Ht & Hlog).
    destruct ev as [| i o | i |]; cbn [step is_click].
    + rewrite Hdom, control_stub.
      unfold activate, is_disabled; cbn [disabled onClick].
      rewrite invoke_stub. cbn. rewrite <- app_assoc. reflexivity.
    + rewrite Ht, lookup_nil. reflexivity.
    + rewrite Ht, lookup_nil. reflexivity.
    + reflexivity.
Qed.

(** X11.  On a mounted stub every activation logs its one line, whenever
    it comes: after any sequence of events the log is that line once per
    click, and nothing else. *)
Theorem X11_stub_logs_once_per_click (href : HrefSetter) (evs : list event) :
  log (exec AuthPageStub.AuthPage href evs (mount AuthPageStub.AuthPage))
  = repeat (ConsoleLog "Login with X clicked") (clicks evs).
Proof. apply (stub_log_exec href evs _ stub_inv_mount). Qed.
